(** * AtomiaBot: the conversation view of [Bot.jsx]

    A shallow embedding of the [Bot] component
    (src/Frontend/src/assets/pages/AtomiaBot/Bot.jsx): its five state
    cells, the asynchronous [sendMessage], [handleKeyDown], the subject
    buttons and the send button, together with the statements that the
    specification makes about them.

    Modelling conventions.
    - A JavaScript string is the list of its UTF-16 code units.
    - A JavaScript value is a tagged union; reading a property of [null]
      or [undefined] throws, reading a missing property gives [undefined].
    - An event handler is a program over the calls the component makes
      ([setMessages], [setInput], ..., [axios.post]); it reads the state
      cells of the render it was created in and its updates are applied,
      in the order issued, to the current state.  [await] suspends the
      program; the suspended rest is stored with the request in flight
      and resumed when the request settles.
    - Events are handled one at a time, and the updates of one handler
      are committed and rendered before the next event is dispatched, so
      a handler always closes over the committed cells.
    - axios rejects the promise on a network error and on a status
      outside 200..299 (its default [validateStatus]).
    - The [useEffect] keyed on [messages] is the DOM call it makes after
      a commit; it reads and writes no state cell.  What the browser then
      does to the viewport is outside the component. *)

From Stdlib Require Import List NArith ZArith Bool String Ascii Lia.
Import ListNotations.

Set Implicit Arguments.
Set Warnings "-register-all".

(* ===================================================================== *)
(** ** JavaScript strings and values *)
(* ===================================================================== *)

Module JS.

(** A string is a sequence of UTF-16 code units. *)
Definition jsstring : Type := list N.

(** The code units of an ASCII literal of the source. *)
Definition lit (s : string) : jsstring :=
  map N_of_ascii (list_ascii_of_string s).

(** [a === b] on two strings. *)
Fixpoint strict_eq (a b : jsstring) : bool :=
  match a, b with
  | [], [] => true
  | x :: a', y :: b' => N.eqb x y && strict_eq a' b'
  | _, _ => false
  end.

(** The code units that [String.prototype.trim] strips: WhiteSpace and
    LineTerminator of ECMA-262 (TAB, LF, VT, FF, CR, SP, NBSP, U+1680,
    U+2000..U+200A, LS, PS, U+202F, U+205F, U+3000, ZWNBSP). *)
Definition isWhiteSpace (c : N) : bool :=
  ((9 <=? c) && (c <=? 13) || (c =? 32) || (c =? 160) || (c =? 5760)
   || (8192 <=? c) && (c <=? 8202)
   || (c =? 8232) || (c =? 8233) || (c =? 8239) || (c =? 8287)
   || (c =? 12288) || (c =? 65279))%N.

Fixpoint trimStart (s : jsstring) : jsstring :=
  match s with
  | [] => []
  | c :: s' => if isWhiteSpace c then trimStart s' else s
  end.

Definition trimEnd (s : jsstring) : jsstring := rev (trimStart (rev s)).

(** [s.trim()] *)
Definition trim (s : jsstring) : jsstring := trimEnd (trimStart s).

(** The values a state cell or a response body can hold. *)
Inductive value : Type :=
| Undefined
| Null
| Bool (b : bool)
| Num (n : Z)
| Str (s : jsstring)
| Arr (elems : list value)
| Obj (props : list (jsstring * value)).

(** ToBoolean, as used by [!v]. *)
Definition truthy (v : value) : bool :=
  match v with
  | Undefined | Null => false
  | Bool b => b
  | Num n => negb (n =? 0)%Z
  | Str s => match s with [] => false | _ => true end
  | Arr _ | Obj _ => true
  end.

(** The own property [k] of an object literal, first binding found. *)
Fixpoint lookup (k : jsstring) (props : list (jsstring * value)) : option value :=
  match props with
  | [] => None
  | (k', v) :: rest => if strict_eq k k' then Some v else lookup k rest
  end.

(** [v.k] for a key [k] that no prototype and no primitive wrapper
    defines (the two keys the component reads, [session_id] and
    [text_response], are such keys).  [None] stands for the TypeError
    thrown when [v] is [null] or [undefined]. *)
Definition getField (v : value) (k : jsstring) : option value :=
  match v with
  | Undefined | Null => None
  | Obj props =>
      match lookup k props with
      | Some x => Some x
      | None => Some Undefined
      end
  | Bool _ | Num _ | Str _ | Arr _ => Some Undefined
  end.

End JS.

Import JS.

(* ===================================================================== *)
(** ** Data model *)
(* ===================================================================== *)

(** [{ role, text }]; [text] is whatever value the code stores there. *)
Record Message : Type := { role : jsstring; text : value }.

(** The body of the request sent to the chat endpoint. *)
Module Body.
Record t : Type := { session_id : value; message : jsstring; subject : jsstring }.
End Body.

Inductive Method : Type := GET | POST.

Record Request : Type := { method : Method; url : jsstring; body : Body.t }.

(** The five [useState] cells of [Bot]. *)
Record State : Type := {
  messages : list Message;
  subject : jsstring;
  input : jsstring;
  sessionId : value;
  loading : bool
}.

(** [useState([])], [useState("Physics")], [useState("")],
    [useState(null)], [useState(false)]. *)
Definition initialState : State :=
  {| messages := [];
     subject := lit "Physics";
     input := lit "";
     sessionId := Null;
     loading := false |}.

Definition API_BASE_URL : jsstring := lit "http://localhost:8000".

Definition subjects : list jsstring :=
  [lit "Physics"; lit "Chemistry"; lit "Mathematics"; lit "Biology"].

(** The text of the fallback record: U+26A0 U+FE0F followed by ASCII. *)
Definition fallbackText : jsstring :=
  [9888%N; 65039%N] ++ lit " Unable to reach Atomia API. Please try again.".

(* ===================================================================== *)
(** ** Handler programs *)
(* ===================================================================== *)

(** The state setters a handler can call. *)
Inductive Update : Type :=
| SetMessages (f : list Message -> list Message)
| SetSubject (v : jsstring)
| SetInput (v : jsstring)
| SetSessionId (v : value)
| SetLoading (b : bool).

Inductive Exn : Type :=
| TypeError
| AxiosError.

(** What an awaited [axios.post] promise settles to. *)
Inductive Settled : Type :=
| Fulfilled (data : value)
| Rejected (e : Exn).

(** A handler program: it returns, throws, calls a setter and goes on, or
    issues a request and awaits it. *)
Inductive Prog (A : Type) : Type :=
| Ret (a : A)
| Throw (e : Exn)
| Call (u : Update) (k : Prog A)
| Await (req : Request) (k : Settled -> Prog A).

Arguments Throw {A} e.

Fixpoint bind {A B : Type} (p : Prog A) (f : A -> Prog B) : Prog B :=
  match p with
  | Ret a => f a
  | Throw e => Throw e
  | Call u k => Call u (bind k f)
  | Await req k => Await req (fun s => bind (k s) f)
  end.

(** [try { p } catch (err) { h err }] *)
Fixpoint try_catch {A : Type} (p : Prog A) (h : Exn -> Prog A) : Prog A :=
  match p with
  | Ret a => Ret a
  | Throw e => h e
  | Call u k => Call u (try_catch k h)
  | Await req k => Await req (fun s => try_catch (k s) h)
  end.

(** [try { p } finally { f }]: [f] runs on both exits, the exit is kept. *)
Fixpoint try_finally {A : Type} (p : Prog A) (f : Prog unit) : Prog A :=
  match p with
  | Ret a => bind f (fun _ => Ret a)
  | Throw e => bind f (fun _ => Throw e)
  | Call u k => Call u (try_finally k f)
  | Await req k => Await req (fun s => try_finally (k s) f)
  end.

Declare Scope prog_scope.
Delimit Scope prog_scope with prog.
Notation "x <- p ;; q" := (bind p (fun x => q))
  (at level 61, p at next level, right associativity) : prog_scope.
Notation "p ;; q" := (bind p (fun _ => q))
  (at level 61, right associativity) : prog_scope.
Local Open Scope prog_scope.

Definition setMessages (f : list Message -> list Message) : Prog unit :=
  Call (SetMessages f) (Ret tt).
Definition setSubject (v : jsstring) : Prog unit := Call (SetSubject v) (Ret tt).
Definition setInput (v : jsstring) : Prog unit := Call (SetInput v) (Ret tt).
Definition setSessionId (v : value) : Prog unit := Call (SetSessionId v) (Ret tt).
Definition setLoading (b : bool) : Prog unit := Call (SetLoading b) (Ret tt).

(** [await axios.post(url, body)]: the value is [response.data]. *)
Definition axios_post (u : jsstring) (b : Body.t) : Prog value :=
  Await {| method := POST; url := u; body := b |}
        (fun s => match s with
                  | Fulfilled data => Ret data
                  | Rejected e => Throw e
                  end).

(** [data.k], throwing the TypeError of a [null] or [undefined] [data]. *)
Definition field (data : value) (k : jsstring) : Prog value :=
  match getField data k with
  | Some v => Ret v
  | None => Throw TypeError
  end.

(* ===================================================================== *)
(** ** The component's handlers *)
(* ===================================================================== *)

(** [sendMessage], created in the render whose cells are [r]. *)
Definition sendMessage (r : State) : Prog unit :=
  if negb (truthy (Str (trim (input r)))) then Ret tt
  else
    let userMsg := {| role := lit "user"; text := Str (input r) |} in
    setMessages (fun prev => prev ++ [userMsg]) ;;
    setInput (lit "") ;;
    setLoading true ;;
    try_finally
      (try_catch
         (data <- axios_post (API_BASE_URL ++ lit "/chat")
                    {| Body.session_id := sessionId r;
                       Body.message := input r;
                       Body.subject := subject r |} ;;
          sid <- field data (lit "session_id") ;;
          setSessionId sid ;;
          txt <- field data (lit "text_response") ;;
          let botMsg := {| role := lit "assistant"; text := txt |} in
          setMessages (fun prev => prev ++ [botMsg]))
         (fun err =>
            setMessages (fun prev =>
              prev ++ [{| role := lit "assistant"; text := Str fallbackText |}])))
      (setLoading false).

(** [handleKeyDown(e)] with [key = e.key]. *)
Definition handleKeyDown (r : State) (key : jsstring) : Prog unit :=
  if strict_eq key (lit "Enter") then sendMessage r else Ret tt.

(* ===================================================================== *)
(** ** The running component *)
(* ===================================================================== *)

(** A request in flight with the suspended rest of its [sendMessage]. *)
Record Pending : Type := { request : Request; resume : Settled -> Prog unit }.

(** The committed state cells and the exchanges in flight. *)
Record World : Type := { ui : State; inflight : list Pending }.

Definition initialWorld : World := {| ui := initialState; inflight := [] |}.

(** What the network does with a request. *)
Inductive Outcome : Type :=
| NetworkError
| Responded (status : Z) (data : value).

(** axios' default [validateStatus]: the promise is fulfilled for a
    status in 200..299 and rejected otherwise, as for a network error. *)
Definition validateStatus (status : Z) : bool :=
  ((200 <=? status) && (status <? 300))%Z.

Definition settle (o : Outcome) : Settled :=
  match o with
  | NetworkError => Rejected AxiosError
  | Responded status data =>
      if validateStatus status then Fulfilled data else Rejected AxiosError
  end.

(** What can happen to the mounted component. *)
Inductive Event : Type :=
| Change (v : jsstring)            (* onChange of the text field *)
| SubjectClick (i : nat)           (* click on the i-th subject button *)
| SendClick                        (* click on the send button *)
| KeyDown (key : jsstring)         (* keydown in the text field *)
| Settles (i : nat) (o : Outcome). (* the i-th request in flight settles *)

Definition apply (u : Update) (s : State) : State :=
  match u with
  | SetMessages f =>
      {| messages := f (messages s); subject := subject s; input := input s;
         sessionId := sessionId s; loading := loading s |}
  | SetSubject v =>
      {| messages := messages s; subject := v; input := input s;
         sessionId := sessionId s; loading := loading s |}
  | SetInput v =>
      {| messages := messages s; subject := subject s; input := v;
         sessionId := sessionId s; loading := loading s |}
  | SetSessionId v =>
      {| messages := messages s; subject := subject s; input := input s;
         sessionId := v; loading := loading s |}
  | SetLoading b =>
      {| messages := messages s; subject := subject s; input := input s;
         sessionId := sessionId s; loading := b |}
  end.

(** Runs a handler up to its return, an uncaught throw, or its await. *)
Fixpoint exec (p : Prog unit) (w : World) : World :=
  match p with
  | Ret _ | Throw _ => w
  | Call u k => exec k {| ui := apply u (ui w); inflight := inflight w |}
  | Await req k =>
      {| ui := ui w;
         inflight := inflight w ++ [{| request := req; resume := k |}] |}
  end.

(** The calls a handler makes, in program order, up to the same point. *)
Inductive Action : Type :=
| Sets (u : Update)
| Posts (req : Request).

Fixpoint trace (p : Prog unit) : list Action :=
  match p with
  | Ret _ | Throw _ => []
  | Call u k => Sets u :: trace k
  | Await req _ => [Posts req]
  end.

Fixpoint remove_nth {A : Type} (i : nat) (l : list A) : list A :=
  match l, i with
  | [], _ => []
  | _ :: l', O => l'
  | x :: l', S i' => x :: remove_nth i' l'
  end.

(** The handler an event runs, and the world it runs in.  The send button
    carries [disabled={loading}], so a click on it reaches [sendMessage]
    only when [loading] is false; [onKeyDown] has no such attribute. *)
Definition dispatch (w : World) (ev : Event) : World * Prog unit :=
  match ev with
  | Change v => (w, setInput v)
  | SubjectClick i =>
      (w, match nth_error subjects i with
          | Some sub => setSubject sub
          | None => Ret tt
          end)
  | SendClick => (w, if loading (ui w) then Ret tt else sendMessage (ui w))
  | KeyDown key => (w, handleKeyDown (ui w) key)
  | Settles i o =>
      match nth_error (inflight w) i with
      | Some p =>
          ({| ui := ui w; inflight := remove_nth i (inflight w) |},
           resume p (settle o))
      | None => (w, Ret tt)
      end
  end.

Definition step (w : World) (ev : Event) : World :=
  exec (snd (dispatch w ev)) (fst (dispatch w ev)).

Definition actions (w : World) (ev : Event) : list Action :=
  trace (snd (dispatch w ev)).

Fixpoint run (w : World) (evs : list Event) : World :=
  match evs with
  | [] => w
  | ev :: rest => run (step w ev) rest
  end.

Fixpoint log (w : World) (evs : list Event) : list Action :=
  match evs with
  | [] => []
  | ev :: rest => actions w ev ++ log (step w ev) rest
  end.

Inductive reachable : World -> Prop :=
| reachable_init : reachable initialWorld
| reachable_step w ev : reachable w -> reachable (step w ev).

(** The requests in flight and the requests a log issued. *)
Definition pending (w : World) : list Request := map request (inflight w).

Fixpoint posted (l : list Action) : list Request :=
  match l with
  | [] => []
  | Posts req :: l' => req :: posted l'
  | Sets _ :: l' => posted l'
  end.

(** The records a log appended, read off its [setMessages] calls. *)
Fixpoint appended (l : list Action) : list Message :=
  match l with
  | [] => []
  | Sets (SetMessages f) :: l' => f [] ++ appended l'
  | _ :: l' => appended l'
  end.

(** The request [sendMessage] builds in render [r]. *)
Definition chatRequest (r : State) : Request :=
  {| method := POST;
     url := API_BASE_URL ++ lit "/chat";
     body := {| Body.session_id := sessionId r;
                Body.message := input r;
                Body.subject := subject r |} |}.

Definition userMsg (s : jsstring) : Message :=
  {| role := lit "user"; text := Str s |}.

Definition assistantMsg (v : value) : Message :=
  {| role := lit "assistant"; text := v |}.

(** The rest of [sendMessage] after [axios.post] has been issued: what
    the [try]/[catch]/[finally] does once the promise settles. *)
Definition afterPost (s : Settled) : Prog unit :=
  try_finally
    (try_catch
       (data <- match s with
                | Fulfilled data => Ret data
                | Rejected e => Throw e
                end ;;
        sid <- field data (lit "session_id") ;;
        setSessionId sid ;;
        txt <- field data (lit "text_response") ;;
        setMessages (fun prev => prev ++ [assistantMsg txt]))
       (fun err =>
          setMessages (fun prev => prev ++ [assistantMsg (Str fallbackText)])))
    (setLoading false).

(** The failures the [catch] block sees: the promise is rejected, or the
    body is [null] or [undefined] so that reading its field throws. *)
Definition caught (o : Outcome) : bool :=
  match o with
  | NetworkError => true
  | Responded status data =>
      negb (validateStatus status)
      || match data with
         | Undefined | Null => true
         | _ => false
         end
  end.

(** The response body the endpoint is expected to send: an object whose
    [session_id] and [text_response] are strings. *)
Definition expectedBody (data : value) : bool :=
  match data with
  | Obj props =>
      match lookup (lit "session_id") props,
            lookup (lit "text_response") props with
      | Some (Str _), Some (Str _) => true
      | _, _ => false
      end
  | _ => false
  end.

(** A failing exchange in the words of the specification: network error,
    status outside 200..299, or a body that is not the expected one. *)
Definition failing (o : Outcome) : bool :=
  match o with
  | NetworkError => true
  | Responded status data =>
      negb (validateStatus status) || negb (expectedBody data)
  end.

Definition isSubjectClick (ev : Event) : bool :=
  match ev with
  | SubjectClick _ => true
  | _ => false
  end.

(** Sample inputs. *)
Definition X : jsstring := lit "X".
Definition X2 : jsstring := lit "X2".
Definition Enter : jsstring := lit "Enter".
Definition okXY : Outcome :=
  Responded 200 (Obj [(lit "session_id", Str (lit "abc"));
                      (lit "text_response", Str (lit "Y"))]).

(* ===================================================================== *)
(** ** The shapes of the handlers *)
(* ===================================================================== *)

(** [(prev) => [...prev, m]] *)
Definition push (m : Message) : list Message -> list Message :=
  fun prev => prev ++ [m].

(** What [afterPost] comes to when [catch] runs, and when both fields
    are read. *)
Definition onFailure : Prog unit :=
  Call (SetMessages (push (assistantMsg (Str fallbackText))))
    (Call (SetLoading false) (Ret tt)).

Definition onSuccess (sid txt : value) : Prog unit :=
  Call (SetSessionId sid)
    (Call (SetMessages (push (assistantMsg txt)))
       (Call (SetLoading false) (Ret tt))).

(** In a tracked world every exchange in flight was suspended by
    [sendMessage], and the user record of its message is in the
    transcript. *)
Definition tracked (w : World) : Prop :=
  Forall (fun p => resume p = afterPost /\
                   In (userMsg (Body.message (body (request p))))
                      (messages (ui w)))
         (inflight w).

Definition without (i : nat) (w : World) : World :=
  {| ui := ui w; inflight := remove_nth i (inflight w) |}.

Definition sending (r : State) : Prog unit :=
  Call (SetMessages (push (userMsg (input r))))
    (Call (SetInput (lit ""))
       (Call (SetLoading true)
          (Await (chatRequest r) afterPost))).

(** The handler of an event, by cases: the world it runs in and the
    program it runs. *)
Inductive Handled (w : World) : Event -> World -> Prog unit -> Prop :=
| handled_change v :
    Handled w (Change v) w (setInput v)
| handled_subject i sub :
    nth_error subjects i = Some sub ->
    Handled w (SubjectClick i) w (setSubject sub)
| handled_click :
    loading (ui w) = false -> trim (input (ui w)) <> [] ->
    Handled w SendClick w (sending (ui w))
| handled_enter key :
    strict_eq key (lit "Enter") = true -> trim (input (ui w)) <> [] ->
    Handled w (KeyDown key) w (sending (ui w))
| handled_failure i p o :
    nth_error (inflight w) i = Some p -> caught o = true ->
    Handled w (Settles i o) (without i w) onFailure
| handled_success i p o sid txt :
    nth_error (inflight w) i = Some p -> caught o = false ->
    Handled w (Settles i o) (without i w) (onSuccess sid txt)
| handled_nothing ev :
    isSubjectClick ev = false \/ (exists i, ev = SubjectClick i /\ List.length subjects <= i) ->
    Handled w ev w (Ret tt).

(* ===================================================================== *)
(** ** What [Bot] renders *)
(* ===================================================================== *)

(** The value of the JSX expression [{v && <e/>}]: the element when [v]
    is truthy, the falsy [v] itself otherwise. *)
Inductive Slot (E : Type) : Type :=
| Element (e : E)
| Skipped (v : value).

Arguments Skipped {E} v.

Definition js_and {E : Type} (v : value) (e : E) : Slot E :=
  if truthy v then Element e else Skipped v.

(** One button of [subjects.map]: its label and key [sub], and whether it
    gets the style of [subject === sub]. *)
Record SubjectButton : Type := { label : jsstring; selected : bool }.

(** One child of [messages.map((msg, idx) => ...)]: its [key], the
    branch of [msg.role === "user"] and the [{msg.text}] it shows. *)
Inductive Variant : Type := UserRow | AssistantRow.

Record Row : Type := { rowKey : nat; variant : Variant; content : value }.

Fixpoint rowsFrom (idx : nat) (ms : list Message) : list Row :=
  match ms with
  | [] => []
  | msg :: rest =>
      {| rowKey := idx;
         variant := if strict_eq (role msg) (lit "user")
                    then UserRow else AssistantRow;
         content := text msg |} :: rowsFrom (S idx) rest
  end.

(** [messages.length === 0 ? <welcome panel> : messages.map(...)] *)
Inductive ChatArea : Type :=
| Welcome
| Rows (rows : list Row).

Inductive Caption : Type := Thinking | Send.

(** The send button: [disabled={loading}], the opacity spread of
    [loading && {...}], and the caption of [loading ? ... : "Send"]. *)
Record SendButton : Type := { disabled : bool; dimmed : bool; caption : Caption }.

Record View : Type := {
  header : Slot value;
  subjectButtons : list SubjectButton;
  chat : ChatArea;
  inputValue : jsstring;
  sendButton : SendButton
}.

(** The JSX that [Bot] returns for the cells [r]; [header] is the session
    badge with the [{sessionId}] it shows. *)
Definition render (r : State) : View :=
  {| header := js_and (sessionId r) (sessionId r);
     subjectButtons :=
       map (fun sub => {| label := sub; selected := strict_eq (subject r) sub |})
           subjects;
     chat := match messages r with
             | [] => Welcome
             | _ :: _ => Rows (rowsFrom 0 (messages r))
             end;
     inputValue := input r;
     sendButton := {| disabled := loading r;
                      dimmed := loading r;
                      caption := if loading r then Thinking else Send |} |}.

(** Events that reach [sendMessage] through [handleKeyDown]. *)
Definition isEnterKey (ev : Event) : bool :=
  match ev with
  | KeyDown key => strict_eq key (lit "Enter")
  | _ => false
  end.

(** Events at which the [try] block reads a response body. *)
Definition readsResponse (ev : Event) : bool :=
  match ev with
  | Settles _ o => negb (caught o)
  | _ => false
  end.

Definition isUser (m : Message) : bool := strict_eq (role m) (lit "user").

Definition isAssistant (m : Message) : bool :=
  strict_eq (role m) (lit "assistant").

(** The text of the record that a settled exchange leaves in the
    transcript: the fallback text when [catch] runs, what reading
    [text_response] gives otherwise. *)
Definition answer (o : Outcome) : value :=
  match settle o with
  | Rejected _ => Str fallbackText
  | Fulfilled data =>
      match getField data (lit "session_id"),
            getField data (lit "text_response") with
      | Some _, Some txt => txt
      | _, _ => Str fallbackText
      end
  end.

(* ===================================================================== *)
(** ** The scroll effect *)
(* ===================================================================== *)











(* ===================================================================== *)
(** ** Strings: when [trim] leaves nothing *)
(* ===================================================================== *)

Lemma trimStart_nil_iff (s : jsstring) :
  trimStart s = [] <-> forallb isWhiteSpace s = true.
Proof.
  induction s as [|c s IH]; simpl.
  - tauto.
  - destruct (isWhiteSpace c); simpl.
    + exact IH.
    + split; intro H; discriminate H.
Qed.

Lemma trimStart_head (s : jsstring) :
  match trimStart s with
  | [] => True
  | c :: _ => isWhiteSpace c = false
  end.
Proof.
  induction s as [|c s IH]; simpl; [exact I|].
  destruct (isWhiteSpace c) eqn:E; [exact IH | exact E].
Qed.

Lemma forallb_rev {A : Type} (f : A -> bool) (l : list A) :
  forallb f (rev l) = forallb f l.
Proof.
  induction l as [|a l IH]; simpl; [reflexivity|].
  rewrite forallb_app, IH. simpl.
  rewrite andb_true_r. apply andb_comm.
Qed.

Lemma trim_nil_iff (s : jsstring) :
  trim s = [] <-> forallb isWhiteSpace s = true.
Proof.
  unfold trim, trimEnd. split.
  - intro H.
    assert (H1 : trimStart (rev (trimStart s)) = []).
    { destruct (trimStart (rev (trimStart s))) as [|c l]; [reflexivity|].
      simpl in H. destruct (rev l); discriminate H. }
    apply trimStart_nil_iff in H1. rewrite forallb_rev in H1.
    pose proof (trimStart_head s) as Hh.
    destruct (trimStart s) as [|c l] eqn:E.
    + apply trimStart_nil_iff. exact E.
    + simpl in H1. rewrite Hh in H1. discriminate H1.
  - intro H. apply trimStart_nil_iff in H. rewrite H. reflexivity.
Qed.

(** The whitespace table at its edges, and [trim] on a padded string. *)
Example isWhiteSpace_edges :
  map isWhiteSpace [8%N; 9%N; 13%N; 14%N; 32%N; 160%N; 8191%N; 8192%N;
                    8202%N; 8203%N; 65279%N; 88%N] =
  [false; true; true; false; true; true; false; true;
   true; false; true; false].
Proof. reflexivity. Qed.

Example trim_padded :
  trim ([32%N; 9%N] ++ lit "a b" ++ [160%N; 10%N]) = lit "a b".
Proof. reflexivity. Qed.

(** [!input.trim()] is false exactly when something is left. *)
Lemma not_trim_false (s : jsstring) :
  trim s <> [] -> negb (truthy (Str (trim s))) = false.
Proof.
  intro H. simpl. destruct (trim s); [contradiction H; reflexivity | reflexivity].
Qed.

Lemma not_trim_true (s : jsstring) :
  forallb isWhiteSpace s = true -> negb (truthy (Str (trim s))) = true.
Proof.
  intro H. apply trim_nil_iff in H. rewrite H. reflexivity.
Qed.

(* ===================================================================== *)
(** ** What the handlers unfold to *)
(* ===================================================================== *)

Lemma sendMessage_blank (r : State) :
  forallb isWhiteSpace (input r) = true -> sendMessage r = Ret tt.
Proof.
  intro H. unfold sendMessage. rewrite not_trim_true by exact H. reflexivity.
Qed.

Lemma sendMessage_send (r : State) :
  trim (input r) <> [] -> sendMessage r = sending r.
Proof.
  intro H. unfold sendMessage. rewrite not_trim_false by exact H. reflexivity.
Qed.

Lemma afterPost_caught (o : Outcome) :
  caught o = true -> afterPost (settle o) = onFailure.
Proof.
  destruct o as [|status data]; simpl; [reflexivity|].
  destruct (validateStatus status); simpl; [|reflexivity].
  destruct data; intro H; try discriminate H; reflexivity.
Qed.

Lemma afterPost_read (o : Outcome) :
  caught o = false ->
  exists status data sid txt,
    o = Responded status data /\ validateStatus status = true /\
    getField data (lit "session_id") = Some sid /\
    getField data (lit "text_response") = Some txt /\
    afterPost (settle o) = onSuccess sid txt.
Proof.
  destruct o as [|status data]; simpl; [discriminate|].
  destruct (validateStatus status) eqn:Ev; simpl; [|discriminate].
  intro H. exists status, data.
  destruct data as [| |b|n|s|elems|props]; try discriminate H;
    try (exists Undefined, Undefined; repeat split; solve [reflexivity | exact Ev]).
  exists (match lookup (lit "session_id") props with Some x => x | None => Undefined end),
         (match lookup (lit "text_response") props with Some x => x | None => Undefined end).
  unfold afterPost, field, getField. cbn [bind].
  destruct (lookup (lit "session_id") props), (lookup (lit "text_response") props);
    repeat split; solve [reflexivity | exact Ev].
Qed.

Lemma strict_eq_true (a b : jsstring) : strict_eq a b = true -> a = b.
Proof.
  revert b. induction a as [|x a IH]; intros [|y b] H; simpl in H;
    try discriminate H; [reflexivity|].
  apply andb_true_iff in H. destruct H as [Hx Hab].
  apply N.eqb_eq in Hx. rewrite Hx, (IH b Hab). reflexivity.
Qed.

(* ===================================================================== *)
(** ** Every handler the component runs *)
(* ===================================================================== *)

Lemma trim_dec (s : jsstring) :
  {forallb isWhiteSpace s = true} + {trim s <> []}.
Proof.
  destruct (forallb isWhiteSpace s) eqn:E; [left; reflexivity | right].
  intro H. apply trim_nil_iff in H. rewrite H in E. discriminate E.
Qed.

Lemma dispatch_handled (w : World) (ev : Event) :
  tracked w -> Handled w ev (fst (dispatch w ev)) (snd (dispatch w ev)).
Proof.
  intro T. destruct ev as [v|i| |key|i o]; simpl.
  - constructor.
  - destruct (nth_error subjects i) as [sub|] eqn:E.
    + constructor. exact E.
    + apply handled_nothing. right. exists i. split; [reflexivity|].
      apply nth_error_None. exact E.
  - destruct (loading (ui w)) eqn:L.
    + apply handled_nothing. left. reflexivity.
    + destruct (trim_dec (input (ui w))) as [B|B].
      * rewrite sendMessage_blank by exact B.
        apply handled_nothing. left. reflexivity.
      * rewrite sendMessage_send by exact B. constructor; assumption.
  - unfold handleKeyDown. destruct (strict_eq key (lit "Enter")) eqn:K.
    + destruct (trim_dec (input (ui w))) as [B|B].
      * rewrite sendMessage_blank by exact B.
        apply handled_nothing. left. reflexivity.
      * rewrite sendMessage_send by exact B. constructor; assumption.
    + apply handled_nothing. left. reflexivity.
  - destruct (nth_error (inflight w) i) as [p|] eqn:E; simpl.
    + assert (R : resume p = afterPost).
      { unfold tracked in T. rewrite Forall_forall in T.
        apply (T p). eapply nth_error_In. exact E. }
      rewrite R. destruct (caught o) eqn:C.
      * rewrite afterPost_caught by exact C.
        eapply handled_failure; eassumption.
      * destruct (afterPost_read o C) as (st & d & sid & txt & _ & _ & _ & _ & Hp).
        rewrite Hp. eapply handled_success; eassumption.
    + apply handled_nothing. left. reflexivity.
Qed.

Lemma Forall_remove_nth {A : Type} (P : A -> Prop) (i : nat) (l : list A) :
  Forall P l -> Forall P (remove_nth i l).
Proof.
  intro H. revert i. induction H as [|x l Hx Hl IH]; intros [|i]; simpl;
    try constructor; auto.
Qed.

Lemma tracked_grow (w w' : World) (l : list Pending) :
  tracked w ->
  (forall m, In m (messages (ui w)) -> In m (messages (ui w'))) ->
  inflight w' = l ->
  (forall p, In p l ->
     In p (inflight w) \/
     (resume p = afterPost /\
      In (userMsg (Body.message (body (request p)))) (messages (ui w')))) ->
  tracked w'.
Proof.
  unfold tracked. intros T M E N. rewrite E.
  rewrite Forall_forall in *. intros p Hp.
  destruct (N p Hp) as [Old|New]; [|exact New].
  destruct (T p Old) as [R U]. split; [exact R | apply M; exact U].
Qed.

Lemma In_remove_nth {A : Type} (i : nat) (l : list A) (x : A) :
  In x (remove_nth i l) -> In x l.
Proof.
  revert i. induction l as [|a l IH]; intros [|i]; simpl; auto.
  intros [H|H]; [left; exact H | right; eapply IH; exact H].
Qed.

Ltac keeps_records :=
  let m := fresh "m" in
  let Hm := fresh "Hm" in
  intros m Hm; unfold push; apply in_or_app; left; exact Hm.

(** A step keeps the world tracked. *)
Lemma step_tracked (w : World) (ev : Event) :
  tracked w -> tracked (step w ev).
Proof.
  intro T. unfold step.
  destruct (dispatch_handled ev T) as [v|i sub E|L B|key K B|i p o E C|i p o sid txt E C|ev' N];
    simpl;
    (eapply tracked_grow; [exact T | | reflexivity | ]); simpl;
    try keeps_records; try (intros m Hm; exact Hm);
    intros q Hq;
    try (left; exact Hq);
    try (left; eapply In_remove_nth; exact Hq).
  all: apply in_app_or in Hq; destruct Hq as [Hq|[Hq|[]]];
    [left; exact Hq|];
    right; subst q; simpl; split; [reflexivity|];
    unfold push; apply in_or_app; right; left; reflexivity.
Qed.

Lemma tracked_initial : tracked initialWorld.
Proof. constructor. Qed.

Lemma run_tracked (w : World) (evs : list Event) :
  tracked w -> tracked (run w evs).
Proof.
  revert w. induction evs as [|ev evs IH]; intros w T; simpl;
    [exact T | apply IH, step_tracked, T].
Qed.

Lemma run_app (w : World) (evs evs' : list Event) :
  run w (evs ++ evs') = run (run w evs) evs'.
Proof.
  revert w. induction evs as [|ev evs IH]; intro w; simpl;
    [reflexivity | apply IH].
Qed.

Lemma reachable_run (evs : list Event) : reachable (run initialWorld evs).
Proof.
  induction evs as [|ev evs IH] using rev_ind; simpl.
  - constructor.
  - rewrite run_app. simpl. constructor. exact IH.
Qed.

Lemma reachable_tracked (w : World) : reachable w -> tracked w.
Proof.
  induction 1 as [|w ev _ IH]; [exact tracked_initial | apply step_tracked, IH].
Qed.

(* ===================================================================== *)
(** ** What one step does to the cells *)
(* ===================================================================== *)

Lemma appended_app (l l' : list Action) :
  appended (l ++ l') = appended l ++ appended l'.
Proof.
  induction l as [|a l IH]; simpl; [reflexivity|].
  destruct a as [[f|v|v|v|b]|req]; simpl; rewrite IH; try reflexivity.
  apply app_assoc.
Qed.

Lemma posted_app (l l' : list Action) :
  posted (l ++ l') = posted l ++ posted l'.
Proof.
  induction l as [|a l IH]; simpl; [reflexivity|].
  destruct a; simpl; rewrite IH; reflexivity.
Qed.

(** The transcript after a step is the transcript before it followed by
    the records of the step's [setMessages] calls. *)
Lemma step_messages (w : World) (ev : Event) :
  tracked w ->
  messages (ui (step w ev)) = messages (ui w) ++ appended (actions w ev).
Proof.
  intro T. unfold step, actions.
  destruct (dispatch_handled ev T); simpl; unfold push;
    rewrite ?app_nil_r; reflexivity.
Qed.

(** Every [setMessages] call of a step passes an updater that appends
    one record. *)
Lemma step_updaters (w : World) (ev : Event) (f : list Message -> list Message) :
  tracked w ->
  In (Sets (SetMessages f)) (actions w ev) ->
  exists m, forall prev, f prev = prev ++ [m].
Proof.
  intros T. unfold actions.
  destruct (dispatch_handled ev T); simpl; intro Hin;
    repeat (destruct Hin as [Hin|Hin];
            [try discriminate Hin; injection Hin as <-|]);
    try contradiction;
    eexists; intro prev; reflexivity.
Qed.

(** Only a subject button changes the subject cell. *)
Lemma step_subject (w : World) (ev : Event) :
  tracked w -> isSubjectClick ev = false ->
  subject (ui (step w ev)) = subject (ui w).
Proof.
  intros T N. unfold step.
  destruct (dispatch_handled ev T); simpl; try reflexivity; discriminate N.
Qed.

(** A step issues no request or the request of the current cells. *)
Lemma step_posted (w : World) (ev : Event) :
  tracked w ->
  posted (actions w ev) = [] \/ posted (actions w ev) = [chatRequest (ui w)].
Proof.
  intro T. unfold actions.
  destruct (dispatch_handled ev T); simpl; auto.
Qed.

Lemma run_messages (w : World) (evs : list Event) :
  tracked w ->
  messages (ui (run w evs)) = messages (ui w) ++ appended (log w evs).
Proof.
  revert w. induction evs as [|ev evs IH]; intros w T; simpl.
  - symmetry. apply app_nil_r.
  - rewrite IH by (apply step_tracked, T).
    rewrite step_messages by exact T.
    rewrite appended_app. symmetry. apply app_assoc.
Qed.

Lemma run_posted_subject (w : World) (evs : list Event) (s : jsstring) :
  tracked w -> subject (ui w) = s ->
  forallb (fun ev => negb (isSubjectClick ev)) evs = true ->
  Forall (fun req => Body.subject (body req) = s) (posted (log w evs)).
Proof.
  revert w. induction evs as [|ev evs IH]; intros w T S N; simpl.
  - constructor.
  - simpl in N. apply andb_true_iff in N. destruct N as [N1 N2].
    apply negb_true_iff in N1.
    rewrite posted_app. apply Forall_app. split.
    + destruct (step_posted ev T) as [E|E]; rewrite E; repeat constructor.
      exact S.
    + apply IH; [apply step_tracked, T | | exact N2].
      rewrite step_subject by assumption. exact S.
Qed.

(** How a settled request is handled when [catch] runs. *)
Lemma settles_caught (w : World) (i : nat) (p : Pending) (o : Outcome) :
  nth_error (inflight w) i = Some p -> resume p = afterPost ->
  caught o = true ->
  dispatch w (Settles i o) = (without i w, onFailure).
Proof.
  intros E R C. simpl. rewrite E, R, afterPost_caught by exact C. reflexivity.
Qed.

(** How a settled request is handled when the body is an object. *)
Lemma settles_object (w : World) (i : nat) (p : Pending) (status : Z)
    (props : list (jsstring * value)) (sid txt : value) :
  nth_error (inflight w) i = Some p -> resume p = afterPost ->
  validateStatus status = true ->
  lookup (lit "session_id") props = Some sid ->
  lookup (lit "text_response") props = Some txt ->
  dispatch w (Settles i (Responded status (Obj props))) =
  (without i w, onSuccess sid txt).
Proof.
  intros E R V Hs Ht. simpl. rewrite E, R, V.
  unfold afterPost, field, getField. cbn [bind]. rewrite Hs, Ht. reflexivity.
Qed.

Lemma tracked_pending (w : World) (i : nat) (p : Pending) :
  tracked w -> nth_error (inflight w) i = Some p ->
  resume p = afterPost /\
  In (userMsg (Body.message (body (request p)))) (messages (ui w)).
Proof.
  intros T E. unfold tracked in T. rewrite Forall_forall in T.
  apply T. eapply nth_error_In. exact E.
Qed.

(** The send button is inert while [loading] is true. *)
Lemma send_button_disabled (w : World) :
  loading (ui w) = true -> actions w SendClick = [] /\ step w SendClick = w.
Proof.
  intro L. unfold actions, step. simpl. rewrite L. split; reflexivity.
Qed.

(* ===================================================================== *)
(** ** The statements of the specification *)
(* ===================================================================== *)

(** C10. Before any user action the transcript is empty, the session
    identifier is [null], the busy flag is false, the input field is
    empty and the subject is "Physics"; and in every run in which no
    subject button is clicked, every request issued carries the subject
    "Physics". *)
Theorem initial_state_default_subject :
  messages (ui initialWorld) = [] /\
  sessionId (ui initialWorld) = Null /\
  loading (ui initialWorld) = false /\
  input (ui initialWorld) = lit "" /\
  subject (ui initialWorld) = lit "Physics" /\
  inflight initialWorld = [] /\
  forall evs : list Event,
    forallb (fun ev => negb (isSubjectClick ev)) evs = true ->
    Forall (fun req => Body.subject (body req) = lit "Physics")
           (posted (log initialWorld evs)).
Proof.
  repeat split.
  intros evs N.
  apply run_posted_subject; [exact tracked_initial | reflexivity | exact N].
Qed.

Lemma initial_state_default_subject_witness :
  forallb (fun ev => negb (isSubjectClick ev)) [Change X; KeyDown Enter] = true /\
  Forall (fun req => Body.subject (body req) = lit "Physics")
         (posted (log initialWorld [Change X; KeyDown Enter])) /\
  posted (log initialWorld [Change X; KeyDown Enter]) =
  [{| method := POST; url := lit "http://localhost:8000/chat";
      body := {| Body.session_id := Null; Body.message := X;
                 Body.subject := lit "Physics" |} |}].
Proof.
  split; [reflexivity|]. split; [|reflexivity].
  apply (proj2 (proj2 (proj2 (proj2 (proj2 (proj2
           initial_state_default_subject)))))).
  reflexivity.
Defined.

(** C6. When the input is empty or holds only whitespace, a submit by the
    send button or by the Enter key makes no call at all (no setter, no
    request) and leaves the whole component, transcript, input field,
    busy flag, session identifier and the requests in flight, as it was. *)
Theorem blank_submit_is_noop (w : World) :
  forallb isWhiteSpace (input (ui w)) = true ->
  actions w SendClick = [] /\
  actions w (KeyDown (lit "Enter")) = [] /\
  step w SendClick = w /\
  step w (KeyDown (lit "Enter")) = w.
Proof.
  intro B. unfold actions, step, dispatch, handleKeyDown.
  rewrite sendMessage_blank by exact B.
  destruct (loading (ui w)); repeat split; reflexivity.
Qed.

Lemma blank_submit_is_noop_witness :
  let w := step initialWorld (Change [32%N; 160%N; 9%N]) in
  forallb isWhiteSpace (input (ui w)) = true /\
  actions w SendClick = [] /\
  actions w (KeyDown (lit "Enter")) = [] /\
  step w SendClick = w /\
  step w (KeyDown (lit "Enter")) = w.
Proof.
  split; [reflexivity|].
  apply (blank_submit_is_noop (step initialWorld (Change [32%N; 160%N; 9%N]))).
  reflexivity.
Defined.

(** C2. When the input trims non-empty, a submit makes exactly these
    calls, in this order: append the record {user, input} to the
    transcript, clear the input field, set the busy flag, issue one
    request; when the handler suspends, the request is in flight and not
    yet settled, the user record is the last of the transcript, the input
    field is empty and the busy flag is true. *)
Theorem submit_calls_in_order (w : World) :
  trim (input (ui w)) <> [] ->
  let calls :=
    [Sets (SetMessages (fun prev => prev ++ [userMsg (input (ui w))]));
     Sets (SetInput (lit ""));
     Sets (SetLoading true);
     Posts (chatRequest (ui w))] in
  let w' := step w (KeyDown (lit "Enter")) in
  actions w (KeyDown (lit "Enter")) = calls /\
  (loading (ui w) = false ->
   actions w SendClick = calls /\ step w SendClick = w') /\
  messages (ui w') = messages (ui w) ++ [userMsg (input (ui w))] /\
  input (ui w') = lit "" /\
  loading (ui w') = true /\
  pending w' = pending w ++ [chatRequest (ui w)].
Proof.
  intros B calls w'. subst calls w'.
  unfold actions, step, dispatch, handleKeyDown, pending.
  rewrite sendMessage_send by exact B. simpl.
  split; [reflexivity|]. split; [|repeat split; try reflexivity].
  - intro L. rewrite L. split; reflexivity.
  - rewrite map_app. reflexivity.
Qed.

Lemma submit_calls_in_order_witness :
  let w := step initialWorld (Change X) in
  trim (input (ui w)) <> [] /\
  actions w (KeyDown (lit "Enter")) =
    [Sets (SetMessages (fun prev => prev ++ [userMsg X]));
     Sets (SetInput (lit ""));
     Sets (SetLoading true);
     Posts (chatRequest (ui w))] /\
  messages (ui (step w (KeyDown (lit "Enter")))) = [userMsg X] /\
  loading (ui (step w (KeyDown (lit "Enter")))) = true.
Proof.
  assert (B : trim (input (ui (step initialWorld (Change X)))) <> [])
    by (vm_compute; discriminate).
  split; [exact B|].
  pose proof (submit_calls_in_order (step initialWorld (Change X)) B) as H.
  simpl in H. destruct H as (H1 & _ & H2 & _ & H3 & _).
  split; [exact H1|]. split; [exact H2 | exact H3].
Defined.

(** C5. A submit whose input trims non-empty issues exactly one request:
    a POST to the base URL followed by [/chat], whose body holds the
    stored session identifier ([null] before any response), the submitted
    text and the selected subject; and the submission that follows a
    response with session_id "abc" carries session_id "abc". *)
Theorem request_payload (w : World) :
  trim (input (ui w)) <> [] ->
  let req :=
    {| method := POST;
       url := lit "http://localhost:8000/chat";
       body := {| Body.session_id := sessionId (ui w);
                  Body.message := input (ui w);
                  Body.subject := subject (ui w) |} |} in
  posted (actions w (KeyDown (lit "Enter"))) = [req] /\
  (loading (ui w) = false -> posted (actions w SendClick) = [req]) /\
  sessionId (ui initialWorld) = Null /\
  posted (log initialWorld
            [Change X; KeyDown Enter; Settles 0 okXY;
             Change X2; KeyDown Enter]) =
  [{| method := POST; url := API_BASE_URL ++ lit "/chat";
      body := {| Body.session_id := Null; Body.message := X;
                 Body.subject := lit "Physics" |} |};
   {| method := POST; url := API_BASE_URL ++ lit "/chat";
      body := {| Body.session_id := Str (lit "abc"); Body.message := X2;
                 Body.subject := lit "Physics" |} |}].
Proof.
  intros B req. subst req.
  unfold actions, dispatch, handleKeyDown.
  rewrite sendMessage_send by exact B. simpl.
  split; [reflexivity|]. split; [|split; reflexivity].
  intro L. rewrite L. reflexivity.
Qed.

Lemma request_payload_witness :
  let w := run initialWorld [Change X; KeyDown Enter; Settles 0 okXY; Change X2] in
  trim (input (ui w)) <> [] /\
  posted (actions w (KeyDown (lit "Enter"))) =
  [{| method := POST;
      url := lit "http://localhost:8000/chat";
      body := {| Body.session_id := Str (lit "abc");
                 Body.message := X2;
                 Body.subject := lit "Physics" |} |}].
Proof.
  assert (B : trim (input (ui (run initialWorld
                [Change X; KeyDown Enter; Settles 0 okXY; Change X2]))) <> [])
    by (vm_compute; discriminate).
  split; [exact B|].
  exact (proj1 (request_payload
                  (run initialWorld
                     [Change X; KeyDown Enter; Settles 0 okXY; Change X2]) B)).
Defined.

(** C8. A click on a subject button makes one call, the setter of the
    subject cell, with one of Physics, Chemistry, Mathematics, Biology;
    the transcript, the input field, the session identifier, the busy
    flag and the exchanges in flight stay as they were, and the request
    of the next submit differs from the one that would have been sent
    only in its subject field, which holds the new value. *)
Theorem subject_click_frame (w : World) (i : nat) (sub : jsstring) :
  nth_error subjects i = Some sub ->
  let w' := step w (SubjectClick i) in
  actions w (SubjectClick i) = [Sets (SetSubject sub)] /\
  subject (ui w') = sub /\
  In sub [lit "Physics"; lit "Chemistry"; lit "Mathematics"; lit "Biology"] /\
  messages (ui w') = messages (ui w) /\
  input (ui w') = input (ui w) /\
  sessionId (ui w') = sessionId (ui w) /\
  loading (ui w') = loading (ui w) /\
  inflight w' = inflight w /\
  (trim (input (ui w)) <> [] ->
   posted (actions w (KeyDown (lit "Enter"))) =
     [{| method := POST; url := API_BASE_URL ++ lit "/chat";
         body := {| Body.session_id := sessionId (ui w);
                    Body.message := input (ui w);
                    Body.subject := subject (ui w) |} |}] /\
   posted (actions w' (KeyDown (lit "Enter"))) =
     [{| method := POST; url := API_BASE_URL ++ lit "/chat";
         body := {| Body.session_id := sessionId (ui w);
                    Body.message := input (ui w);
                    Body.subject := sub |} |}]).
Proof.
  intros E w'. subst w'.
  unfold actions, step, dispatch, handleKeyDown. rewrite E. simpl.
  repeat split; try reflexivity.
  - change (In sub subjects). eapply nth_error_In. exact E.
  - rewrite sendMessage_send by exact H. reflexivity.
  - rewrite sendMessage_send by exact H. reflexivity.
Qed.

Lemma subject_click_frame_witness :
  let w := run initialWorld [Change X; KeyDown Enter; Change X2] in
  nth_error subjects 2 = Some (lit "Mathematics") /\
  subject (ui (step w (SubjectClick 2))) = lit "Mathematics" /\
  messages (ui (step w (SubjectClick 2))) = messages (ui w) /\
  inflight (step w (SubjectClick 2)) = inflight w.
Proof.
  split; [reflexivity|].
  pose proof (subject_click_frame
                (run initialWorld [Change X; KeyDown Enter; Change X2]) 2
                (eq_refl : nth_error subjects 2 = Some (lit "Mathematics"))) as H.
  simpl in H. destruct H as (_ & H1 & _ & H2 & _ & _ & _ & H3 & _).
  split; [exact H1|]. split; [exact H2 | exact H3].
Defined.

(** C7. The transcript only grows at its end: in every reachable state,
    every [setMessages] call of a step passes an updater that appends one
    record, the transcript after the step is the transcript before it
    followed by the records appended, and after any run the transcript
    is exactly the records appended, in the order of their appends. *)
Theorem transcript_append_only (evs : list Event) (ev : Event) :
  let w := run initialWorld evs in
  (forall f, In (Sets (SetMessages f)) (actions w ev) ->
             exists m, forall prev, f prev = prev ++ [m]) /\
  messages (ui (step w ev)) = messages (ui w) ++ appended (actions w ev) /\
  messages (ui w) = appended (log initialWorld evs).
Proof.
  intro w. subst w.
  assert (T : tracked (run initialWorld evs))
    by (apply run_tracked, tracked_initial).
  split; [|split].
  - intros f Hf. eapply step_updaters; eassumption.
  - apply step_messages. exact T.
  - rewrite run_messages by exact tracked_initial. reflexivity.
Qed.

Lemma transcript_append_only_witness :
  let evs := [Change X; KeyDown Enter; Settles 0 okXY] in
  In (Sets (SetMessages (fun prev => prev ++ [userMsg X])))
     (actions (run initialWorld [Change X]) (KeyDown Enter)) /\
  (exists m, forall prev : list Message, prev ++ [userMsg X] = prev ++ [m]) /\
  messages (ui (run initialWorld evs)) = appended (log initialWorld evs) /\
  appended (log initialWorld evs) = [userMsg X; assistantMsg (Str (lit "Y"))].
Proof.
  assert (I : In (Sets (SetMessages (fun prev => prev ++ [userMsg X])))
                 (actions (run initialWorld [Change X]) (KeyDown Enter)))
    by (left; reflexivity).
  split; [exact I|]. split; [|split; [|reflexivity]].
  - exact (proj1 (transcript_append_only [Change X] (KeyDown Enter)) _ I).
  - exact (proj2 (proj2 (transcript_append_only
                           [Change X; KeyDown Enter; Settles 0 okXY]
                           (KeyDown Enter)))).
Defined.

(** C1, as the code has it. When a request in flight settles with a
    network error, with a status outside 200..299, or with a body that is
    [null] or [undefined], the handler makes two calls: it appends the
    fixed assistant record and clears the busy flag.  The transcript
    keeps all it had, the user record of that request included, the
    session identifier is not touched and the busy flag ends false. *)
Theorem failed_exchange_fallback (w : World) (i : nat) (p : Pending) (o : Outcome) :
  reachable w ->
  nth_error (inflight w) i = Some p ->
  caught o = true ->
  let w' := step w (Settles i o) in
  actions w (Settles i o) =
    [Sets (SetMessages (fun prev =>
             prev ++ [{| role := lit "assistant"; text := Str fallbackText |}]));
     Sets (SetLoading false)] /\
  messages (ui w') =
    messages (ui w) ++ [{| role := lit "assistant"; text := Str fallbackText |}] /\
  In {| role := lit "user"; text := Str (Body.message (body (request p))) |}
     (messages (ui w)) /\
  sessionId (ui w') = sessionId (ui w) /\
  loading (ui w') = false /\
  inflight w' = remove_nth i (inflight w).
Proof.
  intros R E C w'. subst w'.
  destruct (@tracked_pending w i p (reachable_tracked R) E) as [K U].
  unfold actions, step. rewrite (@settles_caught w i p o E K C). simpl.
  repeat split; try reflexivity. exact U.
Qed.

Lemma failed_exchange_fallback_witness :
  let w := run initialWorld [Change X; KeyDown Enter] in
  let p := {| request := chatRequest (ui (step initialWorld (Change X)));
              resume := afterPost |} in
  reachable w /\
  nth_error (inflight w) 0 = Some p /\
  caught NetworkError = true /\
  caught (Responded 500 (Str (lit "oops"))) = true /\
  messages (ui (step w (Settles 0 NetworkError))) =
    [{| role := lit "user"; text := Str X |};
     {| role := lit "assistant"; text := Str fallbackText |}] /\
  sessionId (ui (step w (Settles 0 NetworkError))) = Null /\
  loading (ui (step w (Settles 0 NetworkError))) = false.
Proof.
  assert (R : reachable (run initialWorld [Change X; KeyDown Enter]))
    by exact (reachable_step (KeyDown Enter)
                (reachable_step (Change X) reachable_init)).
  split; [exact R|]. split; [reflexivity|]. split; [reflexivity|].
  split; [reflexivity|].
  pose proof (@failed_exchange_fallback _ 0
                {| request := chatRequest (ui (step initialWorld (Change X)));
                   resume := afterPost |}
                NetworkError R eq_refl eq_refl) as H.
  simpl in H. destruct H as (_ & H1 & _ & H2 & H3 & _).
  split; [exact H1|]. split; [exact H2 | exact H3].
Defined.

(** C1, as the specification words it, fails: a 200 response whose body
    is the empty object is not the expected body, yet no fallback record
    is appended; the record appended has the text [undefined] and the
    session identifier is overwritten with [undefined]. *)
Lemma malformed_body_is_not_caught :
  let o := Responded 200 (Obj []) in
  let w := run initialWorld [Change X; KeyDown Enter] in
  let w' := step w (Settles 0 o) in
  failing o = true /\
  messages (ui w') =
    [{| role := lit "user"; text := Str X |};
     {| role := lit "assistant"; text := Undefined |}] /\
  messages (ui w') <>
    messages (ui w) ++ [{| role := lit "assistant"; text := Str fallbackText |}] /\
  sessionId (ui w) = Null /\
  sessionId (ui w') = Undefined /\
  sessionId (ui w') <> sessionId (ui w).
Proof.
  repeat split; try reflexivity.
  - vm_compute. discriminate.
  - vm_compute. discriminate.
Qed.

(** C3. When a request in flight settles with a status in 200..299 and a
    body that has the fields session_id and text_response, the handler
    makes three calls: it stores the returned session_id, appends the
    record {assistant, text_response} and clears the busy flag.  The
    record lands at the end of the transcript, which already holds the
    user record of that request, and the busy flag ends false. *)
Theorem successful_exchange (w : World) (i : nat) (p : Pending)
    (status : Z) (props : list (jsstring * value)) (sid txt : value) :
  reachable w ->
  nth_error (inflight w) i = Some p ->
  validateStatus status = true ->
  lookup (lit "session_id") props = Some sid ->
  lookup (lit "text_response") props = Some txt ->
  let o := Responded status (Obj props) in
  let w' := step w (Settles i o) in
  actions w (Settles i o) =
    [Sets (SetSessionId sid);
     Sets (SetMessages (fun prev =>
             prev ++ [{| role := lit "assistant"; text := txt |}]));
     Sets (SetLoading false)] /\
  sessionId (ui w') = sid /\
  messages (ui w') =
    messages (ui w) ++ [{| role := lit "assistant"; text := txt |}] /\
  In {| role := lit "user"; text := Str (Body.message (body (request p))) |}
     (messages (ui w)) /\
  loading (ui w') = false /\
  inflight w' = remove_nth i (inflight w).
Proof.
  intros R E V Hs Ht o w'. subst o w'.
  destruct (@tracked_pending w i p (reachable_tracked R) E) as [K U].
  unfold actions, step. rewrite (@settles_object w i p status props sid txt E K V Hs Ht). simpl.
  repeat split; try reflexivity. exact U.
Qed.

Lemma successful_exchange_witness :
  let w := run initialWorld [Change X; KeyDown Enter] in
  let w' := step w (Settles 0 okXY) in
  reachable w /\
  validateStatus 200 = true /\
  messages (ui w') =
    [{| role := lit "user"; text := Str X |};
     {| role := lit "assistant"; text := Str (lit "Y") |}] /\
  sessionId (ui w') = Str (lit "abc") /\
  loading (ui w') = false /\
  inflight w' = [].
Proof.
  assert (R : reachable (run initialWorld [Change X; KeyDown Enter]))
    by exact (reachable_step (KeyDown Enter)
                (reachable_step (Change X) reachable_init)).
  split; [exact R|]. split; [reflexivity|].
  pose proof (@successful_exchange _ 0
                {| request := chatRequest (ui (step initialWorld (Change X)));
                   resume := afterPost |}
                200
                [(lit "session_id", Str (lit "abc"));
                 (lit "text_response", Str (lit "Y"))]
                (Str (lit "abc")) (Str (lit "Y"))
                R eq_refl eq_refl eq_refl eq_refl) as H.
  simpl in H. destruct H as (_ & H1 & H2 & _ & H3 & H4).
  split; [exact H2|]. split; [exact H1|]. split; [exact H3 | exact H4].
Defined.

(** C4 at its failing input. With one exchange in flight and the busy
    flag true, a click on the send button issues nothing, but Enter in
    the input field runs [sendMessage] and issues a second request: two
    exchanges are in flight. *)
Theorem enter_key_while_busy :
  let w := run initialWorld
             [Change (lit "a"); KeyDown Enter; Change (lit "b")] in
  let w' := step w (KeyDown Enter) in
  loading (ui w) = true /\
  List.length (inflight w) = 1 /\
  actions w SendClick = [] /\
  posted (actions w (KeyDown Enter)) = [chatRequest (ui w)] /\
  loading (ui w') = true /\
  pending w' =
    [{| method := POST; url := API_BASE_URL ++ lit "/chat";
        body := {| Body.session_id := Null; Body.message := lit "a";
                   Body.subject := lit "Physics" |} |};
     {| method := POST; url := API_BASE_URL ++ lit "/chat";
        body := {| Body.session_id := Null; Body.message := lit "b";
                   Body.subject := lit "Physics" |} |}].
Proof.
  repeat split; reflexivity.
Qed.

(* ===================================================================== *)
(** ** Invariants of the running component *)
(* ===================================================================== *)

Lemma strict_eq_refl (a : jsstring) : strict_eq a a = true.
Proof.
  induction a as [|x a IH]; simpl; [reflexivity|].
  rewrite N.eqb_refl. exact IH.
Qed.

Lemma strict_eq_false (a b : jsstring) : a <> b -> strict_eq a b = false.
Proof.
  intro N. destruct (strict_eq a b) eqn:E; [|reflexivity].
  contradiction N. apply strict_eq_true. exact E.
Qed.

Lemma remove_nth_length {A : Type} (i : nat) (l : list A) (x : A) :
  nth_error l i = Some x -> S (List.length (remove_nth i l)) = List.length l.
Proof.
  revert i. induction l as [|a l IH]; intros [|i] E; simpl in *;
    try discriminate E; [reflexivity|].
  rewrite (IH i E). reflexivity.
Qed.

Lemma rowsFrom_app (idx : nat) (ms ms' : list Message) :
  rowsFrom idx (ms ++ ms') =
  rowsFrom idx ms ++ rowsFrom (idx + List.length ms) ms'.
Proof.
  revert idx. induction ms as [|m ms IH]; intro idx; simpl.
  - rewrite Nat.add_0_r. reflexivity.
  - rewrite IH, Nat.add_succ_r. reflexivity.
Qed.

Lemma rowsFrom_nth (idx n : nat) (ms : list Message) (m : Message) :
  nth_error ms n = Some m ->
  nth_error (rowsFrom idx ms) n =
  Some {| rowKey := idx + n;
          variant := if strict_eq (role m) (lit "user")
                     then UserRow else AssistantRow;
          content := text m |}.
Proof.
  revert idx n. induction ms as [|a ms IH]; intros idx [|n] E; simpl in *;
    try discriminate E.
  - injection E as <-. rewrite Nat.add_0_r. reflexivity.
  - rewrite (IH (S idx) n E), Nat.add_succ_r. reflexivity.
Qed.

(** Induction over the states the component can reach, with the handler
    of each step given by cases. *)
Lemma reachable_handled_ind (P : World -> Prop) :
  P initialWorld ->
  (forall w ev w0 p,
     reachable w -> P w -> Handled w ev w0 p -> P (exec p w0)) ->
  forall w, reachable w -> P w.
Proof.
  intros Hi Hs w R. induction R as [|w ev R IH]; [exact Hi|].
  unfold step. eapply Hs; [exact R | exact IH |].
  apply dispatch_handled, reachable_tracked, R.
Qed.

Lemma subject_in_subjects (w : World) :
  reachable w -> In (subject (ui w)) subjects.
Proof.
  revert w. apply reachable_handled_ind.
  - left. reflexivity.
  - intros w ev w0 p _ IH H. destruct H; try exact IH.
    eapply nth_error_In. eassumption.
Qed.

(** X1. In every reachable state the user records of the transcript are
    as many as its assistant records and the exchanges in flight
    together: each send adds a user record and an exchange, each settled
    exchange turns into one assistant record. *)
Theorem user_records_balance (w : World) :
  reachable w ->
  List.length (filter isUser (messages (ui w))) =
  List.length (filter isAssistant (messages (ui w))) + List.length (inflight w).
Proof.
  revert w. apply reachable_handled_ind; [reflexivity|].
  intros w ev w0 p _ IH H.
  destruct H as [v|i sub E|L B|key K B|i q o E C|i q o sid txt E C|ev N];
    simpl; unfold push; rewrite ?filter_app, ?length_app; simpl;
    try exact IH; try lia.
  - pose proof (remove_nth_length i (inflight w) E). lia.
  - pose proof (remove_nth_length i (inflight w) E). lia.
Qed.

Lemma user_records_balance_witness :
  let w := run initialWorld
             [Change X; KeyDown Enter; Change X2; KeyDown Enter;
              Settles 1 NetworkError] in
  reachable w /\
  List.length (filter isUser (messages (ui w))) = 2 /\
  List.length (filter isAssistant (messages (ui w))) = 1 /\
  List.length (inflight w) = 1 /\
  List.length (filter isUser (messages (ui w))) =
  List.length (filter isAssistant (messages (ui w))) + List.length (inflight w).
Proof.
  split; [apply reachable_run|]. do 3 (split; [reflexivity|]).
  exact (user_records_balance
           (reachable_run [Change X; KeyDown Enter; Change X2;
                           KeyDown Enter; Settles 1 NetworkError])).
Defined.

Lemma roles_invariant (w : World) :
  reachable w ->
  Forall (fun m =>
            (role m = lit "user" /\
             exists s, text m = Str s /\ trim s <> []) \/
            role m = lit "assistant")
         (messages (ui w)).
Proof.
  revert w. apply reachable_handled_ind; [constructor|].
  intros w ev w0 p _ IH H.
  destruct H as [v|i sub E|L B|key K B|i q o E C|i q o sid txt E C|ev N];
    simpl; unfold push; try exact IH;
    apply Forall_app; (split; [exact IH|]);
    (apply Forall_cons; [|apply Forall_nil]);
    try (right; reflexivity);
    left; (split; [reflexivity|]); eexists; (split; [reflexivity | exact B]).
Qed.

(** X2. In every reachable state every record of the transcript has the
    role "user" or the role "assistant", and the text of a user record is
    a string that [trim] does not empty. *)
Theorem transcript_roles (w : World) :
  reachable w ->
  Forall (fun m =>
            (role m = lit "user" /\
             exists s, text m = Str s /\ trim s <> []) \/
            role m = lit "assistant")
         (messages (ui w)).
Proof. exact (@roles_invariant w). Qed.

Lemma transcript_roles_witness :
  let w := run initialWorld [Change X; KeyDown Enter; Settles 0 okXY] in
  reachable w /\
  messages (ui w) = [userMsg X; assistantMsg (Str (lit "Y"))] /\
  Forall (fun m =>
            (role m = lit "user" /\
             exists s, text m = Str s /\ trim s <> []) \/
            role m = lit "assistant")
         (messages (ui w)).
Proof.
  split; [apply reachable_run|]. split; [reflexivity|].
  exact (transcript_roles
           (reachable_run [Change X; KeyDown Enter; Settles 0 okXY])).
Defined.

(** X3. In every reachable state in which the busy flag is true, and so
    the send button is rendered disabled with the caption Thinking, at
    least one exchange is in flight. *)
Theorem busy_has_exchange (w : World) :
  reachable w ->
  disabled (sendButton (render (ui w))) = true ->
  caption (sendButton (render (ui w))) = Thinking /\
  loading (ui w) = true /\
  inflight w <> [].
Proof.
  intros R D. simpl in D. simpl. rewrite D.
  split; [reflexivity|]. split; [reflexivity|].
  revert w R D. apply (reachable_handled_ind
    (fun w => loading (ui w) = true -> inflight w <> [])); [discriminate|].
  intros w ev w0 p _ IH H.
  destruct H as [v|i sub E|L B|key K B|i q o E C|i q o sid txt E C|ev N];
    simpl; try exact IH; try discriminate;
    intros _ A; apply app_eq_nil in A; destruct A as [_ A]; discriminate A.
Qed.

Lemma busy_has_exchange_witness :
  let w := run initialWorld [Change X; KeyDown Enter] in
  reachable w /\
  disabled (sendButton (render (ui w))) = true /\
  caption (sendButton (render (ui w))) = Thinking /\
  inflight w <> [].
Proof.
  split; [apply reachable_run|]. split; [reflexivity|].
  pose proof (busy_has_exchange
                (reachable_run [Change X; KeyDown Enter]) eq_refl) as H.
  destruct H as (H1 & _ & H2). split; [exact H1 | exact H2].
Defined.

(* ===================================================================== *)
(** ** Settled exchanges, whatever the outcome *)
(* ===================================================================== *)

(** How a settled request is handled when both fields can be read. *)
Lemma settles_read (w : World) (i : nat) (p : Pending) (status : Z)
    (data sid txt : value) :
  nth_error (inflight w) i = Some p -> resume p = afterPost ->
  validateStatus status = true ->
  getField data (lit "session_id") = Some sid ->
  getField data (lit "text_response") = Some txt ->
  dispatch w (Settles i (Responded status data)) =
  (without i w, onSuccess sid txt).
Proof.
  intros E R V Hs Ht. simpl. rewrite E, R, V.
  unfold afterPost, field. cbn [bind]. rewrite Hs, Ht. reflexivity.
Qed.

Lemma settles_uncaught (w : World) (i : nat) (p : Pending) (o : Outcome) :
  nth_error (inflight w) i = Some p -> resume p = afterPost ->
  caught o = false ->
  exists sid txt, dispatch w (Settles i o) = (without i w, onSuccess sid txt).
Proof.
  intros E R C.
  destruct (afterPost_read o C) as (st & d & sid & txt & _ & _ & _ & _ & Hp).
  exists sid, txt. simpl. rewrite E, R, Hp. reflexivity.
Qed.

(** X4. As long as no Enter key is pressed in the input field, so that
    [sendMessage] runs from the send button only, at most one exchange is
    in flight: exactly one while the busy flag is true, none while it is
    false. *)
Theorem button_only_single_flight (evs : list Event) :
  forallb (fun ev => negb (isEnterKey ev)) evs = true ->
  let w := run initialWorld evs in
  List.length (inflight w) = if loading (ui w) then 1 else 0.
Proof.
  intros N w. subst w.
  assert (G : forall w,
             tracked w ->
             List.length (inflight w) = (if loading (ui w) then 1 else 0) ->
             List.length (inflight (run w evs)) =
             if loading (ui (run w evs)) then 1 else 0).
  { induction evs as [|ev evs IH]; intros w T J; simpl; [exact J|].
    simpl in N. apply andb_true_iff in N. destruct N as [N1 N2].
    apply negb_true_iff in N1.
    apply (IH N2); [apply step_tracked, T|].
    unfold step.
    destruct (dispatch_handled ev T)
      as [v|i sub E|L B|key K B|i q o E C|i q o sid txt E C|ev' N'];
      simpl; try exact J.
    - rewrite L in J. rewrite length_app, J. reflexivity.
    - simpl in N1. rewrite K in N1. discriminate N1.
    - pose proof (remove_nth_length i (inflight w) E) as F.
      destruct (loading (ui w)); lia.
    - pose proof (remove_nth_length i (inflight w) E) as F.
      destruct (loading (ui w)); lia. }
  apply G; [exact tracked_initial | reflexivity].
Qed.

Lemma button_only_single_flight_witness :
  let evs := [Change X; SendClick; Change X2; SendClick; KeyDown (lit "a");
              SendClick] in
  forallb (fun ev => negb (isEnterKey ev)) evs = true /\
  loading (ui (run initialWorld evs)) = true /\
  List.length (inflight (run initialWorld evs)) = 1.
Proof.
  split; [reflexivity|]. split; [reflexivity|].
  exact (button_only_single_flight
           [Change X; SendClick; Change X2; SendClick; KeyDown (lit "a");
            SendClick] eq_refl).
Defined.

(** X5. Whatever a request in flight settles to, its handler appends
    exactly one record, with the role "assistant", at the end of the
    transcript, clears the busy flag and removes that exchange only; the
    input field and the subject are not touched.  The busy flag is
    cleared even when other exchanges remain in flight. *)
Theorem every_settle_appends_one (w : World) (i : nat) (p : Pending) (o : Outcome) :
  reachable w ->
  nth_error (inflight w) i = Some p ->
  let w' := step w (Settles i o) in
  (exists v, messages (ui w') =
             messages (ui w) ++ [{| role := lit "assistant"; text := v |}]) /\
  loading (ui w') = false /\
  inflight w' = remove_nth i (inflight w) /\
  S (List.length (inflight w')) = List.length (inflight w) /\
  input (ui w') = input (ui w) /\
  subject (ui w') = subject (ui w).
Proof.
  intros R E w'. subst w'.
  destruct (@tracked_pending w i p (reachable_tracked R) E) as [K _].
  pose proof (remove_nth_length i (inflight w) E) as F.
  unfold step. destruct (caught o) eqn:C.
  - rewrite (@settles_caught w i p o E K C). simpl.
    split; [eexists; reflexivity|]. repeat split; try reflexivity. exact F.
  - destruct (@settles_uncaught w i p o E K C) as (sid & txt & D).
    rewrite D. simpl.
    split; [eexists; reflexivity|]. repeat split; try reflexivity. exact F.
Qed.

Lemma every_settle_appends_one_witness :
  let w := run initialWorld [Change X; KeyDown Enter; Change X2; KeyDown Enter] in
  let w' := step w (Settles 1 (Responded 200 (Num 7))) in
  reachable w /\
  nth_error (inflight w) 1 <> None /\
  loading (ui w') = false /\
  List.length (inflight w') = 1 /\
  (exists v, messages (ui w') =
             messages (ui w) ++ [{| role := lit "assistant"; text := v |}]).
Proof.
  split; [apply reachable_run|]. split; [discriminate|].
  pose proof (@every_settle_appends_one
                (run initialWorld [Change X; KeyDown Enter; Change X2; KeyDown Enter])
                1 _ (Responded 200 (Num 7))
                (reachable_run [Change X; KeyDown Enter; Change X2; KeyDown Enter])
                eq_refl) as H.
  destruct H as (H1 & H2 & _).
  split; [exact H2|]. split; [reflexivity | exact H1].
Defined.

(** X6. A response with a status in 200..299 whose body is neither
    [null] nor [undefined] is taken as it is: the session identifier
    becomes what reading [session_id] gives and the appended record shows
    what reading [text_response] gives, and both are [undefined] when the
    body is not an object.  The header then shows the session badge
    exactly when the stored identifier is truthy. *)
Theorem response_read_as_is (w : World) (i : nat) (p : Pending)
    (status : Z) (data sid txt : value) :
  reachable w ->
  nth_error (inflight w) i = Some p ->
  validateStatus status = true ->
  getField data (lit "session_id") = Some sid ->
  getField data (lit "text_response") = Some txt ->
  let w' := step w (Settles i (Responded status data)) in
  sessionId (ui w') = sid /\
  messages (ui w') =
    messages (ui w) ++ [{| role := lit "assistant"; text := txt |}] /\
  loading (ui w') = false /\
  header (render (ui w')) = (if truthy sid then Element sid else Skipped sid) /\
  ((forall props, data <> Obj props) -> sid = Undefined /\ txt = Undefined).
Proof.
  intros R E V Hs Ht w'. subst w'.
  destruct (@tracked_pending w i p (reachable_tracked R) E) as [K _].
  unfold step. rewrite (@settles_read w i p status data sid txt E K V Hs Ht).
  simpl. repeat split; try reflexivity.
  - destruct data; simpl in Hs; try discriminate Hs;
      try (injection Hs as <-; reflexivity).
    contradiction (H props). reflexivity.
  - destruct data; simpl in Ht; try discriminate Ht;
      try (injection Ht as <-; reflexivity).
    contradiction (H props). reflexivity.
Qed.

Lemma response_read_as_is_witness :
  let w := run initialWorld [Change X; KeyDown Enter] in
  let w' := step w (Settles 0 (Responded 200 (Str (lit "<html>")))) in
  reachable w /\
  validateStatus 200 = true /\
  sessionId (ui w') = Undefined /\
  messages (ui w') = [userMsg X; assistantMsg Undefined] /\
  header (render (ui w')) = Skipped Undefined.
Proof.
  split; [apply reachable_run|]. split; [reflexivity|].
  pose proof (@response_read_as_is
                (run initialWorld [Change X; KeyDown Enter]) 0 _ 200
                (Str (lit "<html>")) Undefined Undefined
                (reachable_run [Change X; KeyDown Enter])
                eq_refl eq_refl eq_refl eq_refl) as H.
  destruct H as (H1 & H2 & _ & H3 & _).
  split; [exact H1|]. split; [exact H2 | exact H3].
Defined.

(* ===================================================================== *)
(** ** Sending: keys, requests and what follows a settled exchange *)
(* ===================================================================== *)

(** X7. A key pressed in the input field makes a call exactly when the
    key is "Enter" and the input does not trim to empty; any other key
    leaves the component as it is, and while the send button is enabled
    Enter does what a click on it does. *)
Theorem key_down_acts_on_enter_only (w : World) (key : jsstring) :
  (actions w (KeyDown key) <> [] <->
   key = lit "Enter" /\ trim (input (ui w)) <> []) /\
  (key <> lit "Enter" -> step w (KeyDown key) = w) /\
  (loading (ui w) = false ->
   step w (KeyDown (lit "Enter")) = step w SendClick /\
   actions w (KeyDown (lit "Enter")) = actions w SendClick).
Proof.
  unfold actions, step, dispatch, handleKeyDown. simpl fst. simpl snd.
  split; [|split].
  - destruct (strict_eq key (lit "Enter")) eqn:K.
    + apply strict_eq_true in K.
      destruct (trim_dec (input (ui w))) as [B|B].
      * rewrite sendMessage_blank by exact B. simpl. split.
        -- intro A. contradiction A. reflexivity.
        -- intros [_ A]. apply trim_nil_iff in B. contradiction.
      * rewrite sendMessage_send by exact B. simpl. split.
        -- intros _. split; assumption.
        -- intros _. discriminate.
    + simpl. split.
      * intro A. contradiction A. reflexivity.
      * intros [A _]. subst key. rewrite strict_eq_refl in K. discriminate K.
  - intro N. rewrite (strict_eq_false N). reflexivity.
  - intro L. rewrite L. simpl. split; reflexivity.
Qed.

Lemma key_down_acts_on_enter_only_witness :
  let w := step initialWorld (Change X) in
  lit "enter" <> lit "Enter" /\
  loading (ui w) = false /\
  step w (KeyDown (lit "enter")) = w /\
  step w (KeyDown (lit "Enter")) = step w SendClick.
Proof.
  assert (N : lit "enter" <> lit "Enter") by (vm_compute; discriminate).
  split; [exact N|]. split; [reflexivity|].
  pose proof (key_down_acts_on_enter_only
                (step initialWorld (Change X)) (lit "enter")) as H.
  destruct H as (_ & H1 & _).
  pose proof (key_down_acts_on_enter_only
                (step initialWorld (Change X)) (lit "Enter")) as H'.
  destruct H' as (_ & _ & H2).
  split; [exact (H1 N) | exact (proj1 (H2 eq_refl))].
Defined.

Lemma base_url_chat : API_BASE_URL ++ lit "/chat" = lit "http://localhost:8000/chat".
Proof. reflexivity. Qed.

(** A step issues a request only for an input that does not trim to
    empty. *)
Lemma step_posted_nonblank (w : World) (ev : Event) :
  tracked w ->
  posted (actions w ev) = [] \/
  (posted (actions w ev) = [chatRequest (ui w)] /\ trim (input (ui w)) <> []).
Proof.
  intro T. unfold actions.
  destruct (dispatch_handled ev T); simpl; auto.
Qed.

(** X8. Every request the component issues, in any run from the initial
    state, is a POST to http://localhost:8000/chat whose message does not
    trim to empty and whose subject is one of the four subjects. *)
Theorem every_request_wellformed (evs : list Event) :
  Forall (fun req =>
            method req = POST /\
            url req = lit "http://localhost:8000/chat" /\
            trim (Body.message (body req)) <> [] /\
            In (Body.subject (body req)) subjects)
         (posted (log initialWorld evs)).
Proof.
  assert (G : forall w, reachable w ->
            Forall (fun req =>
                      method req = POST /\
                      url req = lit "http://localhost:8000/chat" /\
                      trim (Body.message (body req)) <> [] /\
                      In (Body.subject (body req)) subjects)
                   (posted (log w evs))).
  { induction evs as [|ev evs IH]; intros w R; simpl; [constructor|].
    rewrite posted_app. apply Forall_app. split.
    - destruct (step_posted_nonblank ev (reachable_tracked R)) as [P|[P B]];
        rewrite P; [apply Forall_nil|].
      apply Forall_cons; [|apply Forall_nil].
      split; [reflexivity|]. split; [exact base_url_chat|].
      split; [exact B | exact (subject_in_subjects R)].
    - apply IH. constructor. exact R. }
  apply G. constructor.
Qed.

(** X9. In every reachable state the view shows the four subject buttons
    in the order of [subjects], and exactly one of them, the one labelled
    with the stored subject, has the selected style. *)
Theorem one_subject_selected (w : World) :
  reachable w ->
  map label (subjectButtons (render (ui w))) = subjects /\
  filter selected (subjectButtons (render (ui w))) =
    [{| label := subject (ui w); selected := true |}].
Proof.
  intro R. pose proof (subject_in_subjects R) as H.
  unfold render. cbn [subjectButtons].
  split; [reflexivity|].
  destruct H as [H|[H|[H|[H|[]]]]]; rewrite <- H; reflexivity.
Qed.

Lemma one_subject_selected_witness :
  let w := run initialWorld [SubjectClick 3; Change X; KeyDown Enter] in
  reachable w /\
  filter selected (subjectButtons (render (ui w))) =
    [{| label := lit "Biology"; selected := true |}].
Proof.
  split; [apply reachable_run|].
  exact (proj2 (one_subject_selected
                  (reachable_run [SubjectClick 3; Change X; KeyDown Enter]))).
Defined.

Lemma rowsFrom_length (idx : nat) (ms : list Message) :
  List.length (rowsFrom idx ms) = List.length ms.
Proof.
  revert idx. induction ms as [|m ms IH]; intro idx; simpl;
    [reflexivity | rewrite IH; reflexivity].
Qed.

Lemma chat_rows (r : State) :
  messages r <> [] -> chat (render r) = Rows (rowsFrom 0 (messages r)).
Proof.
  intro N. unfold render. cbn [chat].
  destruct (messages r); [contradiction N; reflexivity | reflexivity].
Qed.

Lemma chat_rows_inv (r : State) (rows : list Row) :
  chat (render r) = Rows rows ->
  rows = rowsFrom 0 (messages r) /\ messages r <> [].
Proof.
  unfold render. cbn [chat].
  destruct (messages r); intro C; [discriminate C|].
  injection C as <-. split; [reflexivity | discriminate].
Qed.

(** X10. Once the view shows rows instead of the welcome panel, every
    step keeps them: the rows after the step are the rows before it, with
    their keys and contents, followed by the rows of the records the step
    appended, keyed from the old row count on. *)
Theorem rows_only_extend (w : World) (ev : Event) (rows : list Row) :
  reachable w ->
  chat (render (ui w)) = Rows rows ->
  chat (render (ui (step w ev))) =
  Rows (rows ++ rowsFrom (List.length rows) (appended (actions w ev))).
Proof.
  intros R C. pose proof (step_messages ev (reachable_tracked R)) as M.
  apply chat_rows_inv in C. destruct C as [-> N].
  rewrite chat_rows.
  - rewrite M, rowsFrom_app, rowsFrom_length. reflexivity.
  - rewrite M. intro A. apply app_eq_nil in A. destruct A as [A _].
    contradiction.
Qed.

Lemma rows_only_extend_witness :
  let w := run initialWorld [Change X; KeyDown Enter] in
  reachable w /\
  chat (render (ui w)) =
    Rows [{| rowKey := 0; variant := UserRow; content := Str X |}] /\
  chat (render (ui (step w (Settles 0 okXY)))) =
    Rows [{| rowKey := 0; variant := UserRow; content := Str X |};
          {| rowKey := 1; variant := AssistantRow; content := Str (lit "Y") |}].
Proof.
  split; [apply reachable_run|]. split; [reflexivity|].
  exact (@rows_only_extend
           (run initialWorld [Change X; KeyDown Enter]) (Settles 0 okXY)
           [{| rowKey := 0; variant := UserRow; content := Str X |}]
           (reachable_run [Change X; KeyDown Enter]) eq_refl).
Defined.

(** X11. In every reachable state the n-th record of the transcript is
    shown by the n-th row: its key is n, it shows the text of the record,
    and it is a user row for a record of role "user" and an assistant row
    for a record of role "assistant", the only two roles there are. *)
Theorem rows_show_transcript (w : World) (n : nat) (m : Message) :
  reachable w ->
  nth_error (messages (ui w)) n = Some m ->
  exists rows v,
    chat (render (ui w)) = Rows rows /\
    nth_error rows n = Some {| rowKey := n; variant := v; content := text m |} /\
    (v = UserRow /\ role m = lit "user" \/
     v = AssistantRow /\ role m = lit "assistant").
Proof.
  intros R E.
  pose proof (roles_invariant R) as F. rewrite Forall_forall in F.
  pose proof (F m (nth_error_In _ _ E)) as Hm.
  exists (rowsFrom 0 (messages (ui w))),
         (if strict_eq (role m) (lit "user") then UserRow else AssistantRow).
  split; [|split].
  - unfold render. cbn [chat].
    destruct (messages (ui w)); [destruct n; discriminate E | reflexivity].
  - rewrite (rowsFrom_nth 0 n (messages (ui w)) E). reflexivity.
  - destruct Hm as [[Hr _]|Hr]; rewrite Hr; [left | right]; split; reflexivity.
Qed.

Lemma rows_show_transcript_witness :
  let w := run initialWorld [Change X; KeyDown Enter; Settles 0 NetworkError] in
  reachable w /\
  nth_error (messages (ui w)) 1 = Some (assistantMsg (Str fallbackText)) /\
  exists rows v,
    chat (render (ui w)) = Rows rows /\
    nth_error rows 1 =
      Some {| rowKey := 1; variant := v; content := Str fallbackText |} /\
    (v = UserRow /\ lit "assistant" = lit "user" \/
     v = AssistantRow /\ lit "assistant" = lit "assistant").
Proof.
  split; [apply reachable_run|]. split; [reflexivity|].
  exact (@rows_show_transcript
           (run initialWorld [Change X; KeyDown Enter; Settles 0 NetworkError])
           1 (assistantMsg (Str fallbackText))
           (reachable_run [Change X; KeyDown Enter; Settles 0 NetworkError])
           eq_refl).
Defined.

(** X12. As long as no response body has been read, whatever was typed,
    selected, sent or failed, the session identifier is still [null] and
    the header shows no session badge. *)
Theorem badge_needs_response (evs : list Event) :
  forallb (fun ev => negb (readsResponse ev)) evs = true ->
  sessionId (ui (run initialWorld evs)) = Null /\
  header (render (ui (run initialWorld evs))) = Skipped Null.
Proof.
  intro N.
  assert (G : forall w, tracked w -> sessionId (ui w) = Null ->
                        sessionId (ui (run w evs)) = Null).
  { induction evs as [|ev evs IH]; intros w T S; simpl; [exact S|].
    simpl in N. apply andb_true_iff in N. destruct N as [N1 N2].
    apply negb_true_iff in N1.
    apply (IH N2); [apply step_tracked, T|].
    unfold step.
    destruct (dispatch_handled ev T)
      as [v|i sub E|L B|key K B|i q o E C|i q o sid txt E C|ev' N'];
      simpl; try exact S.
    simpl in N1. rewrite C in N1. discriminate N1. }
  pose proof (G initialWorld tracked_initial eq_refl) as S.
  split; [exact S|]. unfold render, js_and. cbn [header]. rewrite S. reflexivity.
Qed.

Lemma badge_needs_response_witness :
  let evs := [Change X; KeyDown Enter; Settles 0 (Responded 503 Null);
              SubjectClick 1; Change X2; SendClick; Settles 0 NetworkError] in
  forallb (fun ev => negb (readsResponse ev)) evs = true /\
  header (render (ui (run initialWorld evs))) = Skipped Null.
Proof.
  split; [reflexivity|].
  exact (proj2 (badge_needs_response
                  [Change X; KeyDown Enter; Settles 0 (Responded 503 Null);
                   SubjectClick 1; Change X2; SendClick; Settles 0 NetworkError]
                  eq_refl)).
Defined.

(** X13. A failed exchange blocks nothing: after it the send button is
    enabled again, and a submit, by the button or by Enter, sends what
    was in the cells before the failure, the session identifier
    included. *)
Theorem resend_after_failure (w : World) (i : nat) (p : Pending) (o : Outcome) :
  reachable w ->
  nth_error (inflight w) i = Some p ->
  caught o = true ->
  trim (input (ui w)) <> [] ->
  let w' := step w (Settles i o) in
  disabled (sendButton (render (ui w'))) = false /\
  posted (actions w' SendClick) = [chatRequest (ui w)] /\
  posted (actions w' (KeyDown (lit "Enter"))) = [chatRequest (ui w)].
Proof.
  intros R E C B w'. subst w'.
  destruct (@tracked_pending w i p (reachable_tracked R) E) as [K _].
  unfold step. rewrite (@settles_caught w i p o E K C).
  unfold actions, dispatch, handleKeyDown. simpl.
  rewrite sendMessage_send by exact B.
  repeat split; reflexivity.
Qed.

Lemma resend_after_failure_witness :
  let w := run initialWorld [Change X; KeyDown Enter; Change X2] in
  let w' := step w (Settles 0 (Responded 500 (Obj []))) in
  reachable w /\
  caught (Responded 500 (Obj [])) = true /\
  trim (input (ui w)) <> [] /\
  posted (actions w' SendClick) =
  [{| method := POST; url := lit "http://localhost:8000/chat";
      body := {| Body.session_id := Null; Body.message := X2;
                 Body.subject := lit "Physics" |} |}].
Proof.
  assert (B : trim (input (ui (run initialWorld
                [Change X; KeyDown Enter; Change X2]))) <> [])
    by (vm_compute; discriminate).
  split; [apply reachable_run|]. split; [reflexivity|]. split; [exact B|].
  pose proof (@resend_after_failure
                (run initialWorld [Change X; KeyDown Enter; Change X2]) 0 _
                (Responded 500 (Obj []))
                (reachable_run [Change X; KeyDown Enter; Change X2])
                eq_refl eq_refl B) as H.
  exact (proj1 (proj2 H)).
Defined.

(** X14. After a response has been read, the next submit sends the
    session identifier that the response carried, whatever it is, with
    the input and the subject of the cells. *)
Theorem next_request_carries_session (w : World) (i : nat) (p : Pending)
    (status : Z) (data sid txt : value) :
  reachable w ->
  nth_error (inflight w) i = Some p ->
  validateStatus status = true ->
  getField data (lit "session_id") = Some sid ->
  getField data (lit "text_response") = Some txt ->
  trim (input (ui w)) <> [] ->
  let w' := step w (Settles i (Responded status data)) in
  let req :=
    {| method := POST; url := lit "http://localhost:8000/chat";
       body := {| Body.session_id := sid;
                  Body.message := input (ui w);
                  Body.subject := subject (ui w) |} |} in
  posted (actions w' SendClick) = [req] /\
  posted (actions w' (KeyDown (lit "Enter"))) = [req].
Proof.
  intros R E V Hs Ht B w' req. subst w' req.
  destruct (@tracked_pending w i p (reachable_tracked R) E) as [K _].
  unfold step. rewrite (@settles_read w i p status data sid txt E K V Hs Ht).
  unfold actions, dispatch, handleKeyDown. simpl.
  rewrite sendMessage_send by exact B.
  split; reflexivity.
Qed.

Lemma next_request_carries_session_witness :
  let w := run initialWorld [Change X; KeyDown Enter; Change X2] in
  let w' := step w (Settles 0 (Responded 200 (Obj []))) in
  reachable w /\
  validateStatus 200 = true /\
  trim (input (ui w)) <> [] /\
  posted (actions w' SendClick) =
  [{| method := POST; url := lit "http://localhost:8000/chat";
      body := {| Body.session_id := Undefined; Body.message := X2;
                 Body.subject := lit "Physics" |} |}].
Proof.
  assert (B : trim (input (ui (run initialWorld
                [Change X; KeyDown Enter; Change X2]))) <> [])
    by (vm_compute; discriminate).
  split; [apply reachable_run|]. split; [reflexivity|]. split; [exact B|].
  pose proof (@next_request_carries_session
                (run initialWorld [Change X; KeyDown Enter; Change X2]) 0 _
                200 (Obj []) Undefined Undefined
                (reachable_run [Change X; KeyDown Enter; Change X2])
                eq_refl eq_refl eq_refl eq_refl B) as H.
  exact (proj1 H).
Defined.

Lemma settle_messages (w : World) (i : nat) (p : Pending) (o : Outcome) :
  tracked w ->
  nth_error (inflight w) i = Some p ->
  messages (ui (step w (Settles i o))) =
    messages (ui w) ++ [assistantMsg (answer o)] /\
  inflight (step w (Settles i o)) = remove_nth i (inflight w).
Proof.
  intros T E. destruct (@tracked_pending w i p T E) as [K _].
  unfold step. destruct (caught o) eqn:C.
  - rewrite (@settles_caught w i p o E K C). simpl.
    split; [|reflexivity]. unfold push. f_equal. f_equal. f_equal.
    unfold answer. destruct o as [|status data]; simpl in *; [reflexivity|].
    destruct (validateStatus status); simpl in *; [|reflexivity].
    destruct data; try discriminate C; reflexivity.
  - destruct (afterPost_read o C)
      as (status & data & sid & txt & -> & V & Hs & Ht & Hp).
    simpl. rewrite E, K. simpl in Hp. rewrite Hp. simpl.
    split; [|reflexivity]. unfold push, answer. simpl.
    rewrite V, Hs, Ht. reflexivity.
Qed.

(** X15. Records land in the order in which the exchanges settle, not in
    the order in which they were sent, and what a settled exchange
    appends depends on its outcome only: when one exchange in flight
    settles and then another, the transcript grows by the record of the
    first outcome followed by the record of the second. *)
Theorem records_in_settle_order (w : World) (i j : nat) (p q : Pending)
    (o o' : Outcome) :
  reachable w ->
  nth_error (inflight w) i = Some p ->
  nth_error (remove_nth i (inflight w)) j = Some q ->
  let w' := step (step w (Settles i o)) (Settles j o') in
  messages (ui w') =
    messages (ui w) ++ [{| role := lit "assistant"; text := answer o |};
                        {| role := lit "assistant"; text := answer o' |}] /\
  inflight w' = remove_nth j (remove_nth i (inflight w)).
Proof.
  intros R E E' w'. subst w'.
  destruct (@settle_messages w i p o (reachable_tracked R) E) as [M1 I1].
  rewrite <- I1 in E'.
  destruct (@settle_messages (step w (Settles i o)) j q o'
              (step_tracked (Settles i o) (reachable_tracked R)) E') as [M2 I2].
  rewrite M2, M1, I2, I1, <- app_assoc. split; reflexivity.
Qed.

Lemma records_in_settle_order_witness :
  let w := run initialWorld [Change X; KeyDown Enter; Change X2; KeyDown Enter] in
  let w' := step (step w (Settles 1 okXY)) (Settles 0 NetworkError) in
  reachable w /\
  pending w = [chatRequest (ui (run initialWorld [Change X]));
               chatRequest (ui (run initialWorld
                                  [Change X; KeyDown Enter; Change X2]))] /\
  messages (ui w') =
    [userMsg X; userMsg X2;
     assistantMsg (Str (lit "Y")); assistantMsg (Str fallbackText)] /\
  inflight w' = [].
Proof.
  split; [apply reachable_run|]. split; [reflexivity|].
  exact (@records_in_settle_order
           (run initialWorld [Change X; KeyDown Enter; Change X2; KeyDown Enter])
           1 0 _ _ okXY NetworkError
           (reachable_run [Change X; KeyDown Enter; Change X2; KeyDown Enter])
           eq_refl eq_refl).
Defined.

(* ===================================================================== *)
(** ** The scroll effect after a commit *)
(* ===================================================================== *)






